(** * viewflow/lock.py: the three lock strategies of a flow

    A shallow embedding of [NoLock], [SelectForUpdateLock] and [CacheLock].
    Each strategy is a generator wrapped by [contextlib.contextmanager]; the
    generator is embedded as a finite tree of operations ([Gen]) in which
    [Yield] marks the point where the protected work runs.  The collaborators
    the module calls and does not implement (the transaction, the process
    table, the cache, the random source and the clock) are operations of that
    tree; [perform] gives them their meaning on a [World]. *)

From Stdlib Require Import QArith ZArith String Ascii List Lia DecimalString.
From stdpp Require Import base gmap strings list.

Close Scope Q_scope.

(** ** Exceptions *)

(** The exception classes, by what the module can tell of them:
    [django.db.DatabaseError] itself, any class derived from it
    ([OperationalError], [IntegrityError], [NotSupportedError], ... or one of
    the application), the classes raised by the module and by Python on its
    behalf, and any class, named, that does not derive from
    [DatabaseError]. *)
Inductive ExnClass : Type :=
| DatabaseError
| DatabaseErrorSubclass (name : string)
| FlowLockFailed
| RuntimeError
| OverflowError
| OtherError (name : string).

(** The subclass a backend raises when a row lock cannot be granted, and the
    one raised when the backend has no [NOWAIT]. *)
Definition OperationalError : ExnClass := DatabaseErrorSubclass "OperationalError".

Record Exn : Type := mkExn { exn_class : ExnClass; exn_msg : string }.

(** [except DatabaseError] catches the class and every class derived from
    it. *)
Definition isinstance_DatabaseError (e : Exn) : bool :=
  match exn_class e with
  | DatabaseError | DatabaseErrorSubclass _ => true
  | _ => false
  end.

(** ** Arguments of [lock] *)

(** What [lock] reads of a flow class: [str(flow_class)], the label
    [flow_class._meta.flow_label] and the process model queried through
    [flow_class.process_class._default_manager]. *)
Record FlowClass : Type := mkFlowClass {
  flow_str : string;
  flow_label : string;
  process_class : string
}.

(** A primary key is an integer or a string. *)
Inductive Pk : Type :=
| PkInt (n : Z)
| PkStr (s : string).

Definition str_int (n : Z) : string := NilZero.string_of_int (Z.to_int n).

Definition str_pk (pk : Pk) : string :=
  match pk with
  | PkInt n => str_int n
  | PkStr s => s
  end.

(** [template.format] applied to [args], for templates whose only replacement
    fields are the automatically numbered [{}].  Both call sites of the module
    pass as many arguments as the template has fields (Python raises
    [IndexError] otherwise; here a field without argument expands to
    nothing). *)
Fixpoint format (template : string) (args : list string) : string :=
  match template with
  | EmptyString => EmptyString
  | String "{"%char (String "}"%char rest) =>
      match args with
      | a :: args' => a +:+ format rest args'
      | [] => format rest []
      end
  | String c rest => String c (format rest args)
  end.

(** ** Operations on the collaborators *)

(** The answer of a query: the boolean of [.exists()], or the exception it
    raised. *)
Inductive QueryAnswer : Type :=
| Answer (b : bool)
| QueryRaises (e : Exn).

Inductive Op : Type -> Type :=
| AtomicEnter : Op unit
    (* transaction.atomic().__enter__ *)
| AtomicCommit : Op (option Exn)
    (* the commit of a normal __exit__; [Some e]: the commit raised [e] *)
| AtomicRollback : Op unit
    (* the rollback of an __exit__ *)
| SelectForUpdateExists (model : string) (pk : Pk) (nowait : bool) : Op QueryAnswer
    (* filter(pk=pk).select_for_update(nowait=nowait).exists() *)
| Exists (model : string) (pk : Pk) : Op QueryAnswer
    (* filter(pk=pk).exists() *)
| CacheAdd (key : string) (value : Z) (timeout : Z) : Op bool
    (* cache.add(key, value, timeout), the timeout a number of seconds *)
| CacheDelete (key : string) : Op unit
    (* cache.delete(key) *)
| RandomRandom : Op Q
    (* random.random() *)
| TimeSleep (secs : Q) : Op unit.
    (* time.sleep(secs); the clock is taken to return whatever the duration,
       a limit of its own on the durations it accepts is not modelled *)

(** ** Generators *)

(** How a suspended generator is resumed: [next(gen)] or [gen.throw(e)]. *)
Inductive Resume : Type :=
| Next
| Throw (e : Exn).

(** A generator body (or any block of one): it completes with a value, raises,
    yields and waits to be resumed, or performs an operation and goes on with
    its answer. *)
Inductive Gen (R : Type) : Type :=
| Return (r : R)
| Raise (e : Exn)
| Yield (k : Resume -> Gen R)
| Perform {X : Type} (op : Op X) (k : X -> Gen R).

Arguments Return {R} r.
Arguments Raise {R} e.
Arguments Yield {R} k.
Arguments Perform {R X} op k.

Fixpoint bind {A B : Type} (g : Gen A) (f : A -> Gen B) : Gen B :=
  match g with
  | Return a => f a
  | Raise e => Raise e
  | Yield k => Yield (fun r => bind (k r) f)
  | Perform op k => Perform op (fun x => bind (k x) f)
  end.

Notation "x <- g ;; h" := (bind g (fun x => h))
  (at level 100, g at next level, h at level 200, only parsing, right associativity).
Notation "g ;;; h" := (bind g (fun _ => h))
  (at level 100, h at level 200, only parsing, right associativity).

Definition call {X : Type} (op : Op X) : Gen X := Perform op Return.

(** The statement [yield]: control comes back by [next] or by [throw]. *)
Definition yield_ : Gen unit :=
  Yield (fun r => match r with Next => Return tt | Throw e => Raise e end).

(** A query: its answer is a boolean or the exception raised. *)
Definition query (op : Op QueryAnswer) : Gen bool :=
  a <- call op ;;
  match a with
  | Answer b => Return b
  | QueryRaises e => Raise e
  end.

(** How a loop body ends: it falls through to the next round or [break]s. *)
Inductive Ctl : Type :=
| Fallthrough
| Break.

(** The end of a [with transaction.atomic():] block.  A body that completes is
    committed; a commit that raises a [DatabaseError] is rolled back and
    re-raised, and any other exception of the commit goes on as it is; a body
    that raises is rolled back and the exception goes on. *)
Fixpoint atomic_exit {A : Type} (body : Gen A) : Gen A :=
  match body with
  | Return a =>
      Perform AtomicCommit (fun r =>
        match r with
        | None => Return a
        | Some e =>
            if isinstance_DatabaseError e
            then Perform AtomicRollback (fun _ => Raise e)
            else Raise e
        end)
  | Raise e => Perform AtomicRollback (fun _ => Raise e)
  | Yield k => Yield (fun r => atomic_exit (k r))
  | Perform op k => Perform op (fun x => atomic_exit (k x))
  end.

(** [with transaction.atomic(): body] *)
Definition with_atomic {A : Type} (body : Gen A) : Gen A :=
  Perform AtomicEnter (fun _ => atomic_exit body).

(** [try: body / except cls: handler / else: orelse]; [catches] is the
    [isinstance] test of the clause.  The [else] block runs outside the
    protection of the handler. *)
Fixpoint try_except_else {A : Type} (body : Gen unit) (catches : Exn -> bool)
    (handler : Exn -> Gen A) (orelse : Gen A) : Gen A :=
  match body with
  | Return _ => orelse
  | Raise e => if catches e then handler e else Raise e
  | Yield k => Yield (fun r => try_except_else (k r) catches handler orelse)
  | Perform op k => Perform op (fun x => try_except_else (k x) catches handler orelse)
  end.

(** [try: body / finally: final] *)
Fixpoint try_finally {A : Type} (body : Gen A) (final : Gen unit) : Gen A :=
  match body with
  | Return a => final ;;; Return a
  | Raise e => final ;;; Raise e
  | Yield k => Yield (fun r => try_finally (k r) final)
  | Perform op k => Perform op (fun x => try_finally (k x) final)
  end.

(** [range(n)] *)
Definition range (n : Z) : list Z := map Z.of_nat (seq 0 (Z.to_nat n)).

(** [for i in items: body / else: orelse]: the [else] block runs when the
    loop ends without [break]. *)
Fixpoint for_else (items : list Z) (body : Z -> Gen Ctl) (orelse : Gen unit) : Gen unit :=
  match items with
  | [] => orelse
  | i :: rest =>
      c <- body i ;;
      match c with
      | Break => Return tt
      | Fallthrough => for_else rest body orelse
      end
  end.

Definition for_ (items : list Z) (body : Z -> Gen Ctl) : Gen unit :=
  for_else items body (Return tt).

(** ** The strategies *)

(** The value of [(((i + 1) * random.random()) + 2 ** i) / 2.5] as an exact
    rational.  Python computes it in binary floating point; the rounding of
    the result is not modelled. *)
Definition sleep_time (i : Z) (random : Q) : Q :=
  ((inject_Z (i + 1) * random + inject_Z (2 ^ i)) / (5 # 2))%Q.

(** Adding the float [(i + 1) * random.random()] to the integer [2 ** i]
    converts the integer to a float, which raises [OverflowError] from
    [2 ** 1024] on. *)
Definition float_overflows (i : Z) : bool := (1024 <=? i)%Z.

Definition overflow_error : Exn :=
  mkExn OverflowError "int too large to convert to float".

(** The evaluation of the expression, [random] having been drawn. *)
Definition eval_sleep_time (i : Z) (random : Q) : Gen Q :=
  if float_overflows i then Raise overflow_error else Return (sleep_time i random).

Definition lock_failed (flow_class : FlowClass) : Exn :=
  mkExn FlowLockFailed (format "Lock failed for {}" [flow_str flow_class]).

Module NoLock.

Inductive t : Type := __init__.

Definition lock (flow_class : FlowClass) (process_pk : Pk) : Gen unit :=
  with_atomic yield_.

Definition __call__ (self : t) (flow : FlowClass) := lock.

End NoLock.

Module SelectForUpdateLock.

Record t : Type := __init__ { nowait : bool; attempts : Z }.

(** The body of the [for] loop, at index [i]. *)
Definition attempt (self : t) (flow_class : FlowClass) (process_pk : Pk) (i : Z) : Gen Ctl :=
  with_atomic
    (try_except_else
       (found <- query (SelectForUpdateExists (process_class flow_class)
                          process_pk (nowait self)) ;;
        if negb found
        then Raise (mkExn DatabaseError "Process not exists")
        else Return tt)
       isinstance_DatabaseError
       (fun _ =>
          if negb (i =? attempts self - 1)%Z
          then
            random <- call RandomRandom ;;
            sleep_time <- eval_sleep_time i random ;;
            call (TimeSleep sleep_time) ;;;
            Return Fallthrough
          else Raise (lock_failed flow_class))
       (yield_ ;;; Return Break)).

Definition lock (self : t) (flow_class : FlowClass) (process_pk : Pk) : Gen unit :=
  for_ (range (attempts self)) (attempt self flow_class process_pk).

Definition __call__ (self : t) (flow : FlowClass) := lock self.

End SelectForUpdateLock.

Module CacheLock.

(** [self.cache] is the cache of the [World]. *)
Record t : Type := __init__ { attempts : Z; expires : Z }.

Definition key (flow_class : FlowClass) (process_pk : Pk) : string :=
  format "django-viewflow-lock-{}/{}" [flow_label flow_class; str_pk process_pk].

(** The body of the [for] loop, at index [i]. *)
Definition attempt (self : t) (flow_class : FlowClass) (process_pk : Pk) (i : Z) : Gen Ctl :=
  let key := key flow_class process_pk in
  found <- query (Exists (process_class flow_class) process_pk) ;;
  stored <- (if found then call (CacheAdd key 1 (expires self)) else Return false) ;;
  if stored
  then Return Break
  else
    (if negb (i =? attempts self - 1)%Z
     then
       random <- call RandomRandom ;;
       sleep_time <- eval_sleep_time i random ;;
       call (TimeSleep sleep_time)
     else Return tt) ;;;
    Return Fallthrough.

Definition lock (self : t) (flow_class : FlowClass) (process_pk : Pk) : Gen unit :=
  let key := key flow_class process_pk in
  for_else (range (attempts self)) (attempt self flow_class process_pk)
    (Raise (lock_failed flow_class)) ;;;
  try_finally (with_atomic yield_) (call (CacheDelete key)).

Definition __call__ (self : t) (flow : FlowClass) := lock self.

End CacheLock.

Definition no_lock : NoLock.t := NoLock.__init__.
Definition cache_lock : CacheLock.t := CacheLock.__init__ 5 120.
Definition select_for_update_lock : SelectForUpdateLock.t :=
  SelectForUpdateLock.__init__ true 5.

(** ** The world the operations act on *)

(** What the code did, in order.  A query is recorded without its answer and
    the random source is not recorded: the trace is what the strategy itself
    does to the collaborators. *)
Inductive Event : Type :=
| EvAtomicEnter
| EvAtomicCommit (committed : bool)
| EvAtomicRollback
| EvSelectForUpdate (model : string) (pk : Pk) (nowait : bool)
| EvExists (model : string) (pk : Pk)
| EvCacheAdd (key : string) (stored : bool)
| EvCacheDelete (key : string)
| EvSleep (secs : Q).

(** The behaviour of the collaborators the module cannot decide: the answer of
    the n-th row-lock request, of the n-th existence query, the n-th random
    sample and the verdict of the n-th commit. *)
Record Env : Type := mkEnv {
  select_for_update_answer : nat -> QueryAnswer;
  exists_answer : nat -> QueryAnswer;
  random_sample : nat -> Q;
  commit_answer : nat -> option Exn
}.

(** The cache (key to value and timeout), how many answers of each kind were
    consumed, and the trace.  An entry stored with a positive timeout stays
    until it is deleted: the passing of time is not modelled. *)
Record World : Type := mkWorld {
  cache : gmap string (Z * Z);
  selects : nat;
  existss : nat;
  randoms : nat;
  commits : nat;
  trace : list Event
}.

Definition committed (verdict : option Exn) : bool :=
  match verdict with
  | None => true
  | Some _ => false
  end.

Definition log (ev : Event) (w : World) : World :=
  mkWorld (cache w) (selects w) (existss w) (randoms w) (commits w) (trace w ++ [ev]).

Definition perform (env : Env) {X : Type} (op : Op X) (w : World) : X * World :=
  match op in Op X return X * World with
  | AtomicEnter => (tt, log EvAtomicEnter w)
  | AtomicCommit =>
      (commit_answer env (commits w),
       log (EvAtomicCommit (committed (commit_answer env (commits w))))
         (mkWorld (cache w) (selects w) (existss w) (randoms w) (S (commits w)) (trace w)))
  | AtomicRollback => (tt, log EvAtomicRollback w)
  | SelectForUpdateExists model pk nowait =>
      (select_for_update_answer env (selects w),
       log (EvSelectForUpdate model pk nowait)
         (mkWorld (cache w) (S (selects w)) (existss w) (randoms w) (commits w) (trace w)))
  | Exists model pk =>
      (exists_answer env (existss w),
       log (EvExists model pk)
         (mkWorld (cache w) (selects w) (S (existss w)) (randoms w) (commits w) (trace w)))
  | CacheAdd key value timeout =>
      (* insert-if-absent; an entry whose timeout is zero or negative has
         expired as soon as it is stored *)
      match cache w !! key with
      | Some _ => (false, log (EvCacheAdd key false) w)
      | None =>
          (true,
           log (EvCacheAdd key true)
             (mkWorld (if (0 <? timeout)%Z
                       then <[key := (value, timeout)]> (cache w)
                       else cache w)
                (selects w) (existss w) (randoms w) (commits w) (trace w)))
      end
  | CacheDelete key =>
      (tt,
       log (EvCacheDelete key)
         (mkWorld (delete key (cache w))
            (selects w) (existss w) (randoms w) (commits w) (trace w)))
  | RandomRandom =>
      (random_sample env (randoms w),
       mkWorld (cache w) (selects w) (existss w) (S (randoms w)) (commits w) (trace w))
  | TimeSleep secs => (tt, log (EvSleep secs) w)
  end.

(** Running a generator until it yields, returns or raises. *)
Inductive Outcome (R : Type) : Type :=
| Finished (r : R) (w : World)
| Failed (e : Exn) (w : World)
| Suspended (k : Resume -> Gen R) (w : World).

Arguments Finished {R} r w.
Arguments Failed {R} e w.
Arguments Suspended {R} k w.

Fixpoint run (env : Env) {R : Type} (g : Gen R) (w : World) : Outcome R :=
  match g with
  | Return r => Finished r w
  | Raise e => Failed e w
  | Yield k => Suspended k w
  | Perform op k => let '(x, w') := perform env op w in run env (k x) w'
  end.

(** ** contextlib.contextmanager *)

Definition didnt_yield : Exn := mkExn RuntimeError "generator didn't yield".
Definition didnt_stop : Exn := mkExn RuntimeError "generator didn't stop".
Definition didnt_stop_after_throw : Exn :=
  mkExn RuntimeError "generator didn't stop after throw()".

(** [__enter__]: the generator runs to its first [yield]; one that ends
    without yielding makes [__enter__] raise [RuntimeError]. *)
Inductive Entered : Type :=
| EnterYielded (k : Resume -> Gen unit) (w : World)
| EnterRaised (e : Exn) (w : World).

Definition __enter__ (env : Env) (gen : Gen unit) (w : World) : Entered :=
  match run env gen w with
  | Suspended k w' => EnterYielded k w'
  | Finished _ w' => EnterRaised didnt_yield w'
  | Failed e w' => EnterRaised e w'
  end.

(** [__exit__]: [exc] is the exception the block raised, if any.  The result
    is the truth value returned ([true]: the exception is suppressed) or the
    exception [__exit__] raises. *)
Inductive Exited : Type :=
| ExitReturned (suppress : bool) (w : World)
| ExitRaised (e : Exn) (w : World).

Definition __exit__ (env : Env) (k : Resume -> Gen unit) (exc : option Exn)
    (w : World) : Exited :=
  match exc with
  | None =>
      match run env (k Next) w with
      | Finished _ w' => ExitReturned false w'
      | Failed e w' => ExitRaised e w'
      | Suspended _ w' => ExitRaised didnt_stop w'
      end
  | Some value =>
      match run env (k (Throw value)) w with
      | Finished _ w' => ExitReturned true w'
      | Failed e w' => ExitRaised e w'
      | Suspended _ w' => ExitRaised didnt_stop_after_throw w'
      end
  end.

(** [with gen: work].  The work is any state transformer that ends normally
    ([None]) or raises.  The result is the exception that reaches the caller
    of the [with] statement, if any; [granted] tells whether the work ran. *)
Record WithResult : Type := mkWithResult {
  granted : bool;
  raised : option Exn;
  world : World
}.

Definition with_ (env : Env) (gen : Gen unit) (work : World -> option Exn * World)
    (w : World) : WithResult :=
  match __enter__ env gen w with
  | EnterRaised e w1 => mkWithResult false (Some e) w1
  | EnterYielded k w1 =>
      let '(exc, w2) := work w1 in
      match __exit__ env k exc w2 with
      | ExitReturned suppress w3 =>
          mkWithResult true (if suppress then None else exc) w3
      | ExitRaised e w3 => mkWithResult true (Some e) w3
      end
  end.

(** ** Reading traces *)

(** The events a run added to the trace of the world it started from. *)
Definition emitted (w w' : World) : list Event := drop (length (trace w)) (trace w').

Definition is_lock_request (ev : Event) : bool :=
  match ev with
  | EvSelectForUpdate _ _ _ => true
  | _ => false
  end.

Definition is_sleep (ev : Event) : bool :=
  match ev with
  | EvSleep _ => true
  | _ => false
  end.

Definition count_events (p : Event -> bool) (tr : list Event) : nat :=
  length (List.filter p tr).

(** The number of transactional scopes open after [tr], starting from [depth]
    open scopes.  A scope is closed by a commit that succeeds or by a
    rollback. *)
Fixpoint open_scopes (depth : nat) (tr : list Event) : nat :=
  match tr with
  | [] => depth
  | EvAtomicEnter :: tr' => open_scopes (S depth) tr'
  | EvAtomicCommit true :: tr' => open_scopes (pred depth) tr'
  | EvAtomicRollback :: tr' => open_scopes (pred depth) tr'
  | _ :: tr' => open_scopes depth tr'
  end.

(** Every sleep of [tr] happens while no transactional scope is open. *)
Fixpoint sleeps_outside_scopes (depth : nat) (tr : list Event) : bool :=
  match tr with
  | [] => true
  | EvSleep _ :: tr' => Nat.eqb depth 0 && sleeps_outside_scopes depth tr'
  | ev :: tr' => sleeps_outside_scopes (open_scopes depth [ev]) tr'
  end.

(** Every sleep of [tr] happens inside exactly one open transactional scope,
    and the next thing done is the commit that ends that scope. *)
Fixpoint sleeps_inside_scope (depth : nat) (tr : list Event) : bool :=
  match tr with
  | [] => true
  | EvSleep _ :: tr' =>
      Nat.eqb depth 1
      && match tr' with
         | EvAtomicCommit _ :: _ => true
         | _ => false
         end
      && sleeps_inside_scope depth tr'
  | ev :: tr' => sleeps_inside_scope (open_scopes depth [ev]) tr'
  end.

(** The keys of the cache operations of [tr]. *)
Fixpoint cache_keys (tr : list Event) : list string :=
  match tr with
  | [] => []
  | EvCacheAdd key _ :: tr' => key :: cache_keys tr'
  | EvCacheDelete key :: tr' => key :: cache_keys tr'
  | _ :: tr' => cache_keys tr'
  end.

Definition is_transaction_event (ev : Event) : bool :=
  match ev with
  | EvAtomicEnter | EvAtomicCommit _ | EvAtomicRollback => true
  | _ => false
  end.
(** * Definitions for the properties *)

(** ** Worlds of results *)

Definition outcome_world {R : Type} (o : Outcome R) : World :=
  match o with
  | Finished _ w | Failed _ w | Suspended _ w => w
  end.

Definition entered_world (r : Entered) : World :=
  match r with
  | EnterYielded _ w | EnterRaised _ w => w
  end.

Definition exited_world (r : Exited) : World :=
  match r with
  | ExitReturned _ w | ExitRaised _ w => w
  end.

(** The world after an operation. *)
Definition after (env : Env) {X : Type} (op : Op X) (w : World) : World :=
  snd (perform env op w).

(** Whether the cache holds [key]. *)
Definition holds (w : World) (key : string) : bool :=
  match cache w !! key with
  | Some _ => true
  | None => false
  end.

(** [range] from a start index, the shape the loop lemmas induct on. *)
Definition range_from (a : Z) (n : nat) : list Z :=
  map (fun j => (a + Z.of_nat j)%Z) (seq 0 n).

(** ** What is left of each generator once it has yielded *)

(** The no-op lock: the end of the [with] block. *)
Definition held_atomic (r : Resume) : Gen unit :=
  atomic_exit (match r with Next => Return tt | Throw e => Raise e end).

(** The row lock: the end of the [with] block around the [yield], then
    [break]. *)
Definition held_scope (r : Resume) : Gen Ctl :=
  atomic_exit (match r with Next => Return tt | Throw e => Raise e end ;;; Return Break).

(** A continuation that ends the scope of [held_scope] and leaves the loop. *)
Definition leaves_loop (k : Resume -> Gen unit) : Prop :=
  exists rest : Gen unit,
    k = fun r => c <- held_scope r ;;
                 match c with
                 | Break => Return tt
                 | Fallthrough => rest
                 end.

(** The cache lock: the end of the [with] block, then the [finally] clause. *)
Definition held_key (key : string) (r : Resume) : Gen unit :=
  try_finally
    (atomic_exit (match r with Next => Return tt | Throw e => Raise e end))
    (call (CacheDelete key)).

(** The end of a scope that yielded inside [transaction.atomic()]: what
    [__exit__] does when the work ended with [exc]. *)
Definition scope_exit (env : Env) (exc : option Exn) (w : World) : Exited :=
  match exc with
  | None =>
      match commit_answer env (commits w) with
      | None => ExitReturned false (after env AtomicCommit w)
      | Some e =>
          ExitRaised e
            (if isinstance_DatabaseError e
             then after env AtomicRollback (after env AtomicCommit w)
             else after env AtomicCommit w)
      end
  | Some e => ExitRaised e (after env AtomicRollback w)
  end.

(** The same, followed by the deletion of the key. *)
Definition key_exit (env : Env) (key : string) (exc : option Exn) (w : World) : Exited :=
  match scope_exit env exc w with
  | ExitReturned suppress w' => ExitReturned suppress (after env (CacheDelete key) w')
  | ExitRaised e w' => ExitRaised e (after env (CacheDelete key) w')
  end.

(** ** The row lock, attempt by attempt *)

(** An answer that sends the row lock to its [except] clause: no record, or a
    database error. *)
Definition contended (a : QueryAnswer) : bool :=
  match a with
  | Answer found => negb found
  | QueryRaises e => isinstance_DatabaseError e
  end.

(** The outcome of the attempt at index [i], read off the answers. *)
Definition row_attempt_outcome (env : Env) (self : SelectForUpdateLock.t)
    (flow_class : FlowClass) (pk : Pk) (i : Z) (w : World) : Outcome Ctl :=
  let request := SelectForUpdateExists (process_class flow_class) pk
                   (SelectForUpdateLock.nowait self) in
  let w1 := after env request (after env AtomicEnter w) in
  let a := select_for_update_answer env (selects w) in
  if contended a then
    if (i =? SelectForUpdateLock.attempts self - 1)%Z
    then Failed (lock_failed flow_class) (after env AtomicRollback w1)
    else if float_overflows i
    then Failed overflow_error (after env AtomicRollback (after env RandomRandom w1))
    else
      let w2 := after env (TimeSleep (sleep_time i (random_sample env (randoms w))))
                  (after env RandomRandom w1) in
      match commit_answer env (commits w) with
      | None => Finished Fallthrough (after env AtomicCommit w2)
      | Some e =>
          Failed e
            (if isinstance_DatabaseError e
             then after env AtomicRollback (after env AtomicCommit w2)
             else after env AtomicCommit w2)
      end
  else
    match a with
    | QueryRaises e => Failed e (after env AtomicRollback w1)
    | Answer _ => Suspended held_scope w1
    end.



(** The events of the loop over [n] indices from [i], read off the answers:
    [cs], [cr] and [cc] count the lock requests, random samples and commits
    consumed so far. *)
Fixpoint row_events (env : Env) (self : SelectForUpdateLock.t) (flow_class : FlowClass)
    (pk : Pk) (n : nat) (i : Z) (cs cr cc : nat) : list Event :=
  match n with
  | O => []
  | S n' =>
      EvAtomicEnter ::
      EvSelectForUpdate (process_class flow_class) pk (SelectForUpdateLock.nowait self) ::
      (if contended (select_for_update_answer env cs) then
         if (i =? SelectForUpdateLock.attempts self - 1)%Z then [EvAtomicRollback]
         else if float_overflows i then [EvAtomicRollback]
         else
           EvSleep (sleep_time i (random_sample env cr)) ::
           match commit_answer env cc with
           | None =>
               EvAtomicCommit true
               :: row_events env self flow_class pk n' (i + 1) (S cs) (S cr) (S cc)
           | Some e =>
               EvAtomicCommit false
               :: (if isinstance_DatabaseError e then [EvAtomicRollback] else [])
           end
       else
         match select_for_update_answer env cs with
         | QueryRaises _ => [EvAtomicRollback]
         | Answer _ => []
         end)
  end.


(** ** The cache lock, attempt by attempt *)

(** The end of an attempt that did not store the key. *)
Definition backoff_outcome (env : Env) (self : CacheLock.t) (i : Z) (w : World)
    : Outcome Ctl :=
  if (i =? CacheLock.attempts self - 1)%Z
  then Finished Fallthrough w
  else if float_overflows i
  then Failed overflow_error (after env RandomRandom w)
  else Finished Fallthrough
         (after env (TimeSleep (sleep_time i (random_sample env (randoms w))))
            (after env RandomRandom w)).

(** The outcome of the attempt at index [i], read off the answers. *)
Definition cache_attempt_outcome (env : Env) (self : CacheLock.t) (flow_class : FlowClass)
    (pk : Pk) (i : Z) (w : World) : Outcome Ctl :=
  let key := CacheLock.key flow_class pk in
  let w1 := after env (Exists (process_class flow_class) pk) w in
  match exists_answer env (existss w) with
  | QueryRaises e => Failed e w1
  | Answer false => backoff_outcome env self i w1
  | Answer true =>
      if holds w key
      then backoff_outcome env self i (after env (CacheAdd key 1 (CacheLock.expires self)) w1)
      else Finished Break (after env (CacheAdd key 1 (CacheLock.expires self)) w1)
  end.

(** The [for ... else] statement of the cache lock. *)
Definition cache_loop (self : CacheLock.t) (flow_class : FlowClass) (pk : Pk)
    (items : list Z) : Gen unit :=
  for_else items (CacheLock.attempt self flow_class pk) (Raise (lock_failed flow_class)).

(** The events of the loop over [n] indices from [i], read off the answers;
    [held] tells whether the cache holds the key. *)
Fixpoint cache_events (env : Env) (self : CacheLock.t) (flow_class : FlowClass) (pk : Pk)
    (held : bool) (n : nat) (i : Z) (ce cr : nat) : list Event :=
  match n with
  | O => []
  | S n' =>
      EvExists (process_class flow_class) pk ::
      match exists_answer env ce with
      | QueryRaises _ => []
      | Answer found =>
          (if found then [EvCacheAdd (CacheLock.key flow_class pk) (negb held)] else [])
          ++ (if found && negb held then []
              else if (i =? CacheLock.attempts self - 1)%Z
              then cache_events env self flow_class pk held n' (i + 1) (S ce) cr
              else if float_overflows i then []
              else
                EvSleep (sleep_time i (random_sample env cr))
                :: cache_events env self flow_class pk held n' (i + 1) (S ce) (S cr))
      end
  end.

(** The loop never yields: it ends by [break] after an insert by this call
    that succeeded, which stored the key unless [expires] made the entry
    expire at once, or it raises with the cache as it was and without an
    insert that succeeded. *)
Definition stored_or_raised (self : CacheLock.t) (flow_class : FlowClass) (pk : Pk)
    (w : World) (o : Outcome unit) : Prop :=
  let key := CacheLock.key flow_class pk in
  (exists e w' tr, o = Failed e w'
                    /\ cache w' = cache w
                    /\ trace w' = trace w ++ tr
                    /\ Forall (fun ev => ev <> EvCacheAdd key true) tr)
  \/ (exists w' tr, o = Finished tt w'
                   /\ holds w key = false
                   /\ cache w' = (if (0 <? CacheLock.expires self)%Z
                                 then <[key := (1%Z, CacheLock.expires self)]> (cache w)
                                 else cache w)
                   /\ trace w' = trace w ++ tr ++ [EvCacheAdd key true]).

(** ** Example inputs *)

Definition hello_flow : FlowClass :=
  mkFlowClass "<class 'helloworld.flows.HelloWorldFlow'>" "helloworld/helloworld"
    "HelloWorldProcess".

Definition fresh_world : World := mkWorld ∅ 0 0 0 0 [].

(** A world whose cache already holds the lock key of process 7. *)
Definition locked_world : World :=
  mkWorld {[ CacheLock.key hello_flow (PkInt 7) := (1%Z, 120%Z) ]} 0 0 0 0 [].

Definition could_not_lock : Exn := mkExn OperationalError "could not obtain lock on row".


Definition boom : Exn := mkExn (OtherError "ValueError") "boom".

(** The row is locked by someone else at every request. *)
Definition busy_env : Env :=
  mkEnv (fun _ => QueryRaises could_not_lock) (fun _ => Answer true)
        (fun _ => (1 # 2)%Q) (fun _ => None).

(** The row is free and every query finds the process. *)
Definition calm_env : Env :=
  mkEnv (fun _ => Answer true) (fun _ => Answer true) (fun _ => (1 # 2)%Q) (fun _ => None).


(** ** More trace readers and example inputs *)

Definition is_exists_query (ev : Event) : bool :=
  match ev with
  | EvExists _ _ => true
  | _ => false
  end.

Definition is_cache_add (ev : Event) : bool :=
  match ev with
  | EvCacheAdd _ _ => true
  | _ => false
  end.










(** * Properties *)

Ltac same_world :=
  unfold after; simpl; unfold log; simpl;
  rewrite <- ?List.app_assoc; simpl;
  repeat (f_equal; try lia).

(** ** Running composed generators *)

Lemma run_bind env {A B : Type} (g : Gen A) (f : A -> Gen B) w :
  run env (bind g f) w =
  match run env g w with
  | Finished a w' => run env (f a) w'
  | Failed e w' => Failed e w'
  | Suspended k w' => Suspended (fun r => bind (k r) f) w'
  end.
Proof.
  revert w. induction g as [a|e|k IH|X op k IH]; intros w; simpl; try reflexivity.
  destruct (perform env op w) as [x w']. apply IH.
Qed.

Lemma run_for_else_cons env i rest body orelse w :
  run env (for_else (i :: rest) body orelse) w =
  match run env (body i) w with
  | Finished Break w' => Finished tt w'
  | Finished Fallthrough w' => run env (for_else rest body orelse) w'
  | Failed e w' => Failed e w'
  | Suspended k w' =>
      Suspended (fun r => c <- k r ;;
                          match c with
                          | Break => Return tt
                          | Fallthrough => for_else rest body orelse
                          end) w'
  end.
Proof.
  simpl. rewrite run_bind. destruct (run env (body i) w) as [[]| |]; reflexivity.
Qed.

Lemma range_from_cons a n : range_from a (S n) = a :: range_from (a + 1) n.
Proof.
  unfold range_from. simpl. rewrite Z.add_0_r. f_equal.
  rewrite <- seq_shift, map_map. apply map_ext. intros j. lia.
Qed.

Lemma range_range_from n : range n = range_from 0 (Z.to_nat n).
Proof. unfold range, range_from. apply map_ext. intros j. reflexivity. Qed.

(** ** Traces *)

Lemma emitted_app w w' tr : trace w' = trace w ++ tr -> emitted w w' = tr.
Proof. unfold emitted. intros ->. apply drop_app_length. Qed.

Ltac emitted_is :=
  erewrite emitted_app
    by (cbv [key_exit scope_exit after log perform snd trace exited_world];
        rewrite <- ?List.app_assoc; reflexivity).

Lemma cache_keys_app tr1 tr2 : cache_keys (tr1 ++ tr2) = cache_keys tr1 ++ cache_keys tr2.
Proof.
  induction tr1 as [|ev tr1 IH]; [reflexivity|].
  destruct ev; simpl; rewrite ?IH; reflexivity.
Qed.

Lemma count_events_app p tr1 tr2 :
  count_events p (tr1 ++ tr2) = count_events p tr1 + count_events p tr2.
Proof. unfold count_events. rewrite List.filter_app, length_app. reflexivity. Qed.

(** ** Keys and messages *)

Lemma append_empty (s : string) : s +:+ "" = s.
Proof.
  induction s as [|c s IH]; [reflexivity|].
  change (String c (s +:+ "") = String c s). rewrite IH. reflexivity.
Qed.


Lemma key_layout flow_class pk :
  CacheLock.key flow_class pk
  = "django-viewflow-lock-" +:+ flow_label flow_class +:+ "/" +:+ str_pk pk.
Proof. unfold CacheLock.key. simpl. rewrite append_empty. reflexivity. Qed.

(** ** Leaving a scope *)

Lemma exit_held_atomic env exc w :
  __exit__ env held_atomic exc w = scope_exit env exc w.
Proof.
  unfold __exit__, scope_exit, held_atomic, after. destruct exc as [e|]; simpl; [reflexivity|].
  destruct (commit_answer env (commits w)) as [e|]; [|reflexivity].
  destruct (isinstance_DatabaseError e); reflexivity.
Qed.

Lemma exit_leaves_loop env k exc w :
  leaves_loop k -> __exit__ env k exc w = scope_exit env exc w.
Proof.
  intros [rest ->]. unfold __exit__, scope_exit, held_scope, after.
  destruct exc as [e|]; simpl.
  - reflexivity.
  - destruct (commit_answer env (commits w)) as [e|]; [|reflexivity].
    destruct (isinstance_DatabaseError e); reflexivity.
Qed.

Lemma exit_held_key env key exc w :
  __exit__ env (held_key key) exc w = key_exit env key exc w.
Proof.
  unfold __exit__, key_exit, scope_exit, held_key, call, after.
  destruct exc as [e|]; simpl.
  - reflexivity.
  - destruct (commit_answer env (commits w)) as [e|]; [|reflexivity].
    destruct (isinstance_DatabaseError e); reflexivity.
Qed.

Lemma scope_exit_events env exc w :
  cache (exited_world (scope_exit env exc w)) = cache w
  /\ forallb is_transaction_event (emitted w (exited_world (scope_exit env exc w))) = true.
Proof.
  unfold scope_exit.
  destruct exc as [e|]; [|destruct (commit_answer env (commits w)) as [e|] eqn:Hc].
  - split; [reflexivity|]. erewrite emitted_app by (cbn; reflexivity). reflexivity.
  - destruct (isinstance_DatabaseError e); (split; [reflexivity|]).
    + erewrite emitted_app by (cbn; rewrite <- List.app_assoc; reflexivity). reflexivity.
    + erewrite emitted_app by (cbn; reflexivity). reflexivity.
  - split; [reflexivity|]. erewrite emitted_app by (cbn; reflexivity). reflexivity.
Qed.

(** ** The row lock *)

Section RowLock.
Variables (env : Env) (self : SelectForUpdateLock.t) (flow_class : FlowClass) (pk : Pk).

Lemma run_row_attempt i w :
  run env (SelectForUpdateLock.attempt self flow_class pk i) w
  = row_attempt_outcome env self flow_class pk i w.
Proof.
  unfold row_attempt_outcome, SelectForUpdateLock.attempt, with_atomic, query, call, yield_.
  unfold eval_sleep_time, after. simpl.
  destruct (select_for_update_answer env (selects w)) as [[|]|e]; simpl.
  - reflexivity.
  - destruct (_ =? _)%Z; simpl; [reflexivity|].
    destruct (float_overflows i); simpl; [reflexivity|].
    destruct (commit_answer env (commits w)) as [e|]; [|reflexivity].
    destruct (isinstance_DatabaseError e); reflexivity.
  - destruct (isinstance_DatabaseError e); simpl; [|reflexivity].
    destruct (_ =? _)%Z; simpl; [reflexivity|].
    destruct (float_overflows i); simpl; [reflexivity|].
    destruct (commit_answer env (commits w)) as [e'|]; [|reflexivity].
    destruct (isinstance_DatabaseError e'); reflexivity.
Qed.





(** Any answers: the trace of the loop, and the cache left alone. *)
Lemma row_loop_trace (n : nat) : forall (i : Z) (w : World),
  let o := run env (for_ (range_from i n) (SelectForUpdateLock.attempt self flow_class pk)) w in
  trace (outcome_world o)
  = trace w ++ row_events env self flow_class pk n i (selects w) (randoms w) (commits w)
  /\ cache (outcome_world o) = cache w.
Proof.
  induction n as [|n IH]; intros i w; cbv zeta.
  - simpl. rewrite app_nil_r. split; reflexivity.
  - rewrite range_from_cons. unfold for_. rewrite run_for_else_cons, run_row_attempt.
    unfold row_attempt_outcome. cbn [row_events].
    destruct (contended (select_for_update_answer env (selects w))).
    + destruct (i =? _)%Z; [|destruct (float_overflows i)].
      * simpl. rewrite <- !List.app_assoc. split; reflexivity.
      * simpl. rewrite <- !List.app_assoc. split; reflexivity.
      * destruct (commit_answer env (commits w)) as [e|] eqn:Hc.
        -- destruct (isinstance_DatabaseError e); unfold after; simpl; rewrite Hc; simpl;
             rewrite <- !List.app_assoc; split; reflexivity.
        -- fold (for_ (range_from (i + 1) n) (SelectForUpdateLock.attempt self flow_class pk)).
           match goal with |- context [run env _ ?w'] =>
             destruct (IH (i + 1)%Z w') as [Ht Hk] end.
           split; [rewrite Ht|rewrite Hk]; unfold after; simpl; [|reflexivity].
           rewrite Hc. simpl. rewrite <- !List.app_assoc. reflexivity.
    + destruct (select_for_update_answer env (selects w));
        simpl; rewrite <- !List.app_assoc; split; reflexivity.
Qed.

Lemma row_lock_enter_trace w :
  emitted w (entered_world (__enter__ env (SelectForUpdateLock.lock self flow_class pk) w))
  = row_events env self flow_class pk (Z.to_nat (SelectForUpdateLock.attempts self)) 0
      (selects w) (randoms w) (commits w).
Proof.
  apply emitted_app.
  unfold __enter__, SelectForUpdateLock.lock. rewrite range_range_from.
  pose proof (row_loop_trace (Z.to_nat (SelectForUpdateLock.attempts self)) 0 w) as [Ht _].
  destruct (run env _ w); exact Ht.
Qed.

Lemma row_loop_suspended (n : nat) : forall (i : Z) (w : World) k w1,
  run env (for_ (range_from i n) (SelectForUpdateLock.attempt self flow_class pk)) w
  = Suspended k w1 ->
  leaves_loop k.
Proof.
  induction n as [|n IH]; intros i w k w1; [discriminate|].
  rewrite range_from_cons. unfold for_. rewrite run_for_else_cons, run_row_attempt.
  unfold row_attempt_outcome.
  destruct (contended _).
  - destruct (_ =? _)%Z; [discriminate|].
    destruct (float_overflows i); [discriminate|].
    destruct (commit_answer _ _); [discriminate|]. apply IH.
  - destruct (select_for_update_answer _ _); [|discriminate].
    intros [= <- _]. eexists. reflexivity.
Qed.

Lemma row_lock_exit w k w1 env2 exc w2 :
  __enter__ env (SelectForUpdateLock.lock self flow_class pk) w = EnterYielded k w1 ->
  __exit__ env2 k exc w2 = scope_exit env2 exc w2.
Proof.
  unfold __enter__, SelectForUpdateLock.lock. rewrite range_range_from.
  destruct (run _ _ _) as [| |k' w'] eqn:Hrun; try discriminate.
  intros [= <- _]. apply exit_leaves_loop. eapply row_loop_suspended, Hrun.
Qed.

Lemma sleeps_inside_row_events n : forall i cs cr cc,
  sleeps_inside_scope 0 (row_events env self flow_class pk n i cs cr cc) = true.
Proof.
  induction n as [|n IH]; intros i cs cr cc; [reflexivity|].
  cbn [row_events].
  destruct (contended (select_for_update_answer env cs)).
  - destruct (i =? _)%Z; [reflexivity|].
    destruct (float_overflows i); [reflexivity|].
    destruct (commit_answer env cc) as [e|]; [destruct (isinstance_DatabaseError e); reflexivity|].
    cbn. apply IH.
  - destruct (select_for_update_answer env cs); reflexivity.
Qed.






Lemma row_events_requests n : forall i cs cr cc,
  count_events is_lock_request (row_events env self flow_class pk n i cs cr cc) <= n
  /\ Forall (fun ev => is_lock_request ev = true ->
                       ev = EvSelectForUpdate (process_class flow_class) pk
                              (SelectForUpdateLock.nowait self))
       (row_events env self flow_class pk n i cs cr cc)
  /\ cache_keys (row_events env self flow_class pk n i cs cr cc) = [].
Proof.
  induction n as [|n IH]; intros i cs cr cc; [repeat split; constructor|].
  cbn [row_events].
  destruct (contended (select_for_update_answer env cs)).
  - destruct (i =? _)%Z; [|destruct (float_overflows i)].
    + split; [unfold count_events; simpl; lia|]. split; [|reflexivity].
      repeat constructor; discriminate.
    + split; [unfold count_events; simpl; lia|]. split; [|reflexivity].
      repeat constructor; discriminate.
    + destruct (commit_answer env cc) as [e|].
      * destruct (isinstance_DatabaseError e);
          (split; [unfold count_events; simpl; lia|]); (split; [|reflexivity]);
          repeat constructor; discriminate.
      * destruct (IH (i + 1)%Z (S cs) (S cr) (S cc)) as (Hn & Hf & Hk).
        split; [unfold count_events in *; simpl; lia|]. split; [|exact Hk].
        repeat (constructor; [first [discriminate | reflexivity]|]). exact Hf.
  - destruct (select_for_update_answer env cs);
      (split; [unfold count_events; simpl; lia|]); (split; [|reflexivity]);
      repeat constructor; discriminate.
Qed.

End RowLock.

Section MissingRecord.
Variables (env : Env) (e : Exn) (self : SelectForUpdateLock.t).
Variables (flow_class : FlowClass) (pk : Pk).
Hypothesis e_is_database_error : isinstance_DatabaseError e = true.



End MissingRecord.

(** ** The cache lock *)

Lemma after_cache_add_held env key value timeout w :
  holds w key = true ->
  after env (CacheAdd key value timeout) w = log (EvCacheAdd key false) w.
Proof.
  unfold holds, after, perform. destruct (cache w !! key); [reflexivity|discriminate].
Qed.

Lemma after_cache_add_free env key value timeout w :
  holds w key = false ->
  after env (CacheAdd key value timeout) w
  = log (EvCacheAdd key true)
      (mkWorld (if (0 <? timeout)%Z then <[key := (value, timeout)]> (cache w) else cache w)
         (selects w) (existss w) (randoms w) (commits w) (trace w)).
Proof.
  unfold holds, after, perform. destruct (cache w !! key); [discriminate|reflexivity].
Qed.

Section CacheLock.
Variables (env : Env) (self : CacheLock.t) (flow_class : FlowClass) (pk : Pk).

Lemma run_cache_attempt i w :
  run env (CacheLock.attempt self flow_class pk i) w
  = cache_attempt_outcome env self flow_class pk i w.
Proof.
  unfold cache_attempt_outcome, backoff_outcome, CacheLock.attempt, query, call, holds.
  unfold eval_sleep_time, after. simpl.
  destruct (exists_answer env (existss w)) as [[|]|e]; simpl.
  - destruct (cache w !! CacheLock.key flow_class pk); simpl.
    + destruct (_ =? _)%Z; [reflexivity|]. destruct (float_overflows i); reflexivity.
    + reflexivity.
  - destruct (_ =? _)%Z; [reflexivity|]. destruct (float_overflows i); reflexivity.
  - reflexivity.
Qed.

(** The end of an attempt that stored nothing: it falls through, after a
    sleep unless it is the last one, or the duration overflows. *)
Lemma backoff_outcome_cases i w :
  (exists w',
      backoff_outcome env self i w = Finished Fallthrough w'
      /\ cache w' = cache w /\ existss w' = existss w
      /\ randoms w' = (if (i =? CacheLock.attempts self - 1)%Z then randoms w
                       else S (randoms w))
      /\ trace w' = trace w ++ (if (i =? CacheLock.attempts self - 1)%Z then []
                               else [EvSleep (sleep_time i (random_sample env (randoms w)))])
      /\ ((i =? CacheLock.attempts self - 1)%Z = true \/ float_overflows i = false))
  \/ (exists w',
         backoff_outcome env self i w = Failed overflow_error w'
         /\ cache w' = cache w /\ trace w' = trace w
         /\ (i =? CacheLock.attempts self - 1)%Z = false /\ float_overflows i = true).
Proof.
  unfold backoff_outcome.
  destruct (i =? _)%Z; [|destruct (float_overflows i)].
  - left. eexists. split; [reflexivity|]. rewrite app_nil_r. repeat split. left. reflexivity.
  - right. eexists. repeat split.
  - left. eexists. split; [reflexivity|]. repeat split. right. reflexivity.
Qed.

Lemma stored_or_raised_later w w1 tr1 o :
  cache w1 = cache w -> trace w1 = trace w ++ tr1 ->
  Forall (fun ev => ev <> EvCacheAdd (CacheLock.key flow_class pk) true) tr1 ->
  stored_or_raised self flow_class pk w1 o -> stored_or_raised self flow_class pk w o.
Proof.
  intros Hc Ht Hf [(e & w' & tr & -> & Hc' & Ht' & Hf')|(w' & tr & -> & Hh & Hc' & Ht')].
  - left. exists e, w', (tr1 ++ tr). split; [reflexivity|]. split; [congruence|].
    split; [rewrite Ht', Ht, <- List.app_assoc; reflexivity|].
    apply Forall_app. split; assumption.
  - right. exists w', (tr1 ++ tr). unfold holds in *. rewrite Hc in *.
    repeat split; try assumption.
    rewrite Ht', Ht, <- !List.app_assoc. reflexivity.
Qed.

Lemma cache_loop_outcome (n : nat) : forall (i : Z) (w : World),
  stored_or_raised self flow_class pk w
    (run env (cache_loop self flow_class pk (range_from i n)) w).
Proof.
  induction n as [|n IH]; intros i w.
  - left. exists (lock_failed flow_class), w, []. rewrite app_nil_r.
    repeat split. constructor.
  - rewrite range_from_cons. unfold cache_loop. rewrite run_for_else_cons, run_cache_attempt.
    fold (cache_loop self flow_class pk (range_from (i + 1) n)).
    unfold cache_attempt_outcome. cbv zeta.
    destruct (exists_answer env (existss w)) as [[|]|e].
    + destruct (holds w (CacheLock.key flow_class pk)) eqn:Hh.
      * rewrite after_cache_add_held by exact Hh.
        match goal with |- context [backoff_outcome env self i ?w1] =>
          destruct (backoff_outcome_cases i w1)
            as [(w' & -> & Hc & _ & _ & Ht & _)|(w' & -> & Hc & Ht & _)] end.
        -- eapply stored_or_raised_later; [exact Hc| | |apply IH].
           ++ rewrite Ht. cbn [log after perform snd trace]. rewrite <- !List.app_assoc.
              reflexivity.
           ++ destruct (_ =? _)%Z; repeat constructor; discriminate.
        -- left. eexists _, _, _. split; [reflexivity|]. split; [exact Hc|].
           split; [rewrite Ht; cbn [log after perform snd trace];
                   rewrite <- !List.app_assoc; reflexivity|].
           repeat constructor; discriminate.
      * rewrite after_cache_add_free by exact Hh.
        right. eexists _, [EvExists (process_class flow_class) pk]. split; [reflexivity|].
        split; [exact Hh|]. split; [reflexivity|].
        cbn [log after perform snd trace]. rewrite <- !List.app_assoc. reflexivity.
    + match goal with |- context [backoff_outcome env self i ?w1] =>
        destruct (backoff_outcome_cases i w1)
          as [(w' & -> & Hc & _ & _ & Ht & _)|(w' & -> & Hc & Ht & _)] end.
      * eapply stored_or_raised_later; [exact Hc| | |apply IH].
        -- rewrite Ht. cbn [log after perform snd trace]. rewrite <- !List.app_assoc.
           reflexivity.
        -- destruct (_ =? _)%Z; repeat constructor; discriminate.
      * left. eexists _, _, _. split; [reflexivity|]. split; [exact Hc|].
        split; [rewrite Ht; cbn [log after perform snd trace]; reflexivity|].
        repeat constructor; discriminate.
    + left. eexists _, _, [EvExists (process_class flow_class) pk].
      split; [reflexivity|]. split; [reflexivity|]. split; [reflexivity|].
      repeat constructor. discriminate.
Qed.

Lemma cache_loop_trace (n : nat) : forall (i : Z) (w : World),
  trace (outcome_world (run env (cache_loop self flow_class pk (range_from i n)) w))
  = trace w ++ cache_events env self flow_class pk (holds w (CacheLock.key flow_class pk))
                 n i (existss w) (randoms w).
Proof.
  induction n as [|n IH]; intros i w.
  - simpl. rewrite app_nil_r. reflexivity.
  - rewrite range_from_cons. unfold cache_loop. rewrite run_for_else_cons, run_cache_attempt.
    fold (cache_loop self flow_class pk (range_from (i + 1) n)).
    unfold cache_attempt_outcome. cbv zeta. cbn [cache_events].
    destruct (exists_answer env (existss w)) as [[|]|e].
    + destruct (holds w (CacheLock.key flow_class pk)) eqn:Hh.
      * rewrite after_cache_add_held by exact Hh.
        match goal with |- context [backoff_outcome env self i ?w1] =>
          destruct (backoff_outcome_cases i w1)
            as [(w' & -> & Hc & He & Hr & Ht & Hok)|(w' & -> & Hc & Ht & Hl & Hf)] end.
        -- rewrite IH, Ht, He, Hr. unfold holds in *. rewrite Hc.
           cbn [log after perform snd trace cache existss randoms andb negb].
           rewrite Hh. destruct (i =? _)%Z; [|destruct Hok as [Hok | ->]; [discriminate|]];
             rewrite <- !List.app_assoc; reflexivity.
        -- cbn [outcome_world andb negb]. rewrite Ht, Hl, Hf.
           cbn [log after perform snd trace]. rewrite <- ?List.app_assoc. reflexivity.
      * rewrite after_cache_add_free by exact Hh.
        cbn [log after perform snd trace outcome_world andb negb].
        rewrite <- !List.app_assoc. reflexivity.
    + match goal with |- context [backoff_outcome env self i ?w1] =>
        destruct (backoff_outcome_cases i w1)
          as [(w' & -> & Hc & He & Hr & Ht & Hok)|(w' & -> & Hc & Ht & Hl & Hf)] end.
      * rewrite IH, Ht, He, Hr. unfold holds. rewrite Hc.
        cbn [log after perform snd trace cache existss randoms andb negb].
        destruct (i =? _)%Z; [|destruct Hok as [Hok | ->]; [discriminate|]];
          rewrite <- !List.app_assoc; reflexivity.
      * cbn [outcome_world andb negb]. rewrite Ht, Hl, Hf.
        cbn [log after perform snd trace]. rewrite <- ?List.app_assoc. reflexivity.
    + reflexivity.
Qed.

(** Entering the cache lock: the loop, then the scope around the [yield]. *)
Lemma cache_lock_enter w :
  __enter__ env (CacheLock.lock self flow_class pk) w =
  match run env (cache_loop self flow_class pk (range (CacheLock.attempts self))) w with
  | Finished _ w' =>
      EnterYielded (held_key (CacheLock.key flow_class pk)) (after env AtomicEnter w')
  | Failed e w' => EnterRaised e w'
  | Suspended k w' =>
      EnterYielded
        (fun r => k r ;;;
                  try_finally (with_atomic yield_)
                    (call (CacheDelete (CacheLock.key flow_class pk)))) w'
  end.
Proof.
  unfold __enter__, CacheLock.lock. cbv zeta. rewrite run_bind.
  fold (cache_loop self flow_class pk (range (CacheLock.attempts self))).
  destruct (run env (cache_loop _ _ _ _) w); reflexivity.
Qed.

Lemma cache_lock_enter_cases w :
  (exists e w' tr,
      __enter__ env (CacheLock.lock self flow_class pk) w = EnterRaised e w'
      /\ cache w' = cache w
      /\ trace w' = trace w ++ tr
      /\ Forall (fun ev => ev <> EvCacheAdd (CacheLock.key flow_class pk) true) tr)
  \/ (exists w' tr,
         __enter__ env (CacheLock.lock self flow_class pk) w
         = EnterYielded (held_key (CacheLock.key flow_class pk)) w'
         /\ holds w (CacheLock.key flow_class pk) = false
         /\ cache w' = (if (0 <? CacheLock.expires self)%Z
                        then <[CacheLock.key flow_class pk := (1%Z, CacheLock.expires self)]>
                               (cache w)
                        else cache w)
         /\ trace w' = trace w ++ tr
                       ++ [EvCacheAdd (CacheLock.key flow_class pk) true; EvAtomicEnter]).
Proof.
  rewrite cache_lock_enter, range_range_from.
  destruct (cache_loop_outcome (Z.to_nat (CacheLock.attempts self)) 0 w)
    as [(e & w' & tr & -> & Hc & Ht & Hf)|(w' & tr & -> & Hh & Hc & Ht)].
  - left. exists e, w', tr. repeat split; assumption.
  - right. exists (after env AtomicEnter w'), tr. split; [reflexivity|].
    split; [exact Hh|]. split; [exact Hc|].
    cbn [log after perform snd trace]. rewrite Ht, <- !List.app_assoc. reflexivity.
Qed.

Lemma cache_lock_enter_trace w :
  exists tail,
    Forall (eq (CacheLock.key flow_class pk)) (cache_keys tail)
    /\ emitted w (entered_world (__enter__ env (CacheLock.lock self flow_class pk) w))
       = cache_events env self flow_class pk (holds w (CacheLock.key flow_class pk))
           (Z.to_nat (CacheLock.attempts self)) 0 (existss w) (randoms w)
         ++ tail.
Proof.
  rewrite cache_lock_enter, range_range_from.
  pose proof (cache_loop_trace (Z.to_nat (CacheLock.attempts self)) 0 w) as Ht.
  destruct (run env _ w) as [[] w'|e w'|k w']; cbn [outcome_world entered_world] in *.
  - exists [EvAtomicEnter]. split; [constructor|]. apply emitted_app.
    cbv [after log perform snd]; cbn [trace]. rewrite Ht, <- List.app_assoc. reflexivity.
  - exists []. split; [constructor|].
    apply emitted_app. rewrite app_nil_r. exact Ht.
  - exists []. split; [constructor|].
    apply emitted_app. rewrite app_nil_r. exact Ht.
Qed.

Lemma cache_events_keys held n : forall i ce cr,
  Forall (eq (CacheLock.key flow_class pk))
    (cache_keys (cache_events env self flow_class pk held n i ce cr)).
Proof.
  induction n as [|n IH]; intros i ce cr; simpl; [constructor|].
  destruct (exists_answer env ce) as [[|]|e]; simpl.
  - destruct held; simpl.
    + constructor; [reflexivity|].
      destruct (_ =? _)%Z; [apply IH|]. destruct (float_overflows i); [constructor|apply IH].
    + constructor; [reflexivity|constructor].
  - destruct (_ =? _)%Z; [apply IH|]. destruct (float_overflows i); [constructor|apply IH].
  - constructor.
Qed.








(** The events of entering, with what follows the loop. *)
Lemma cache_lock_enter_scope w :
  match __enter__ env (CacheLock.lock self flow_class pk) w with
  | EnterYielded _ w1 =>
      emitted w w1
      = cache_events env self flow_class pk (holds w (CacheLock.key flow_class pk))
          (Z.to_nat (CacheLock.attempts self)) 0 (existss w) (randoms w)
        ++ [EvAtomicEnter]
  | EnterRaised _ w1 =>
      emitted w w1
      = cache_events env self flow_class pk (holds w (CacheLock.key flow_class pk))
          (Z.to_nat (CacheLock.attempts self)) 0 (existss w) (randoms w)
  end.
Proof.
  rewrite cache_lock_enter, range_range_from.
  pose proof (cache_loop_trace (Z.to_nat (CacheLock.attempts self)) 0 w) as Ht.
  destruct (cache_loop_outcome (Z.to_nat (CacheLock.attempts self)) 0 w)
    as [(e & w' & tr & Hrun & _)|(w' & tr & Hrun & _)];
    rewrite Hrun in *; cbn [outcome_world] in Ht; apply emitted_app.
  - exact Ht.
  - cbv [after log perform snd]; cbn [trace]. rewrite Ht, <- List.app_assoc. reflexivity.
Qed.

Lemma cache_events_outside_scopes held n : forall i ce cr tail,
  sleeps_outside_scopes 0
    (cache_events env self flow_class pk held n i ce cr ++ tail)
  = sleeps_outside_scopes 0 tail
  /\ open_scopes 0 (cache_events env self flow_class pk held n i ce cr ++ tail)
     = open_scopes 0 tail
  /\ count_events is_exists_query (cache_events env self flow_class pk held n i ce cr) <= n
  /\ count_events is_cache_add (cache_events env self flow_class pk held n i ce cr)
     <= count_events is_exists_query (cache_events env self flow_class pk held n i ce cr).
Proof.
  induction n as [|n IH]; intros i ce cr tail; [repeat split; unfold count_events; simpl; lia|].
  cbn [cache_events].
  destruct (exists_answer env ce) as [[|]|e]; [| |repeat split; unfold count_events; simpl; lia].
  - destruct held; cbn [andb negb app].
    + destruct (i =? _)%Z; [|destruct (float_overflows i)]; cbn [app];
        try (repeat split; unfold count_events; simpl; lia);
        match goal with |- context [cache_events env self flow_class pk true n ?a ?b ?c] =>
          destruct (IH a b c tail) as (H1 & H2 & H3 & H4) end;
        (split; [exact H1|]); (split; [exact H2|]);
        unfold count_events in *; simpl; lia.
    + repeat split; unfold count_events; simpl; lia.
  - cbn [andb app].
    destruct (i =? _)%Z; [|destruct (float_overflows i)]; cbn [app];
      try (repeat split; unfold count_events; simpl; lia);
      match goal with |- context [cache_events env self flow_class pk held n ?a ?b ?c] =>
        destruct (IH a b c tail) as (H1 & H2 & H3 & H4) end;
      (split; [exact H1|]); (split; [exact H2|]);
      unfold count_events in *; simpl; lia.
Qed.

End CacheLock.

(** * The claims *)

(** C1.  Cache lock: an insert of the lock key that succeeds is always
    followed by the [yield], and once the generator has yielded the key is
    deleted on every way out of the scope: when the work returns and the
    commit succeeds, when the commit fails, and when the work raises.  In each
    case the deletion is the last thing done, in the world [__exit__] hands
    back together with the exception, if any.  At the [yield] the cache holds
    the key with value 1 and the configured expiry, unless that expiry is zero
    or negative and the entry is gone at once; a commit that fails is rolled
    back when its exception is a [DatabaseError]. *)
Theorem cache_lock_always_deletes_key env self flow_class pk w :
  let key := CacheLock.key flow_class pk in
  let entered := __enter__ env (CacheLock.lock self flow_class pk) w in
  (In (EvCacheAdd key true) (emitted w (entered_world entered)) ->
   exists k w1, entered = EnterYielded k w1)
  /\ forall k w1,
       entered = EnterYielded k w1 ->
       (exists tr, trace w1 = trace w ++ tr ++ [EvCacheAdd key true; EvAtomicEnter])
       /\ cache w1 !! key = (if (0 <? CacheLock.expires self)%Z
                             then Some (1%Z, CacheLock.expires self)
                             else None)
       /\ forall env' exc w2,
            let out := __exit__ env' k exc w2 in
            cache (exited_world out) !! key = None
            /\ cache (exited_world out) = delete key (cache w2)
            /\ match exc, commit_answer env' (commits w2) with
               | None, None =>
                   out = ExitReturned false (exited_world out)
                   /\ emitted w2 (exited_world out) = [EvAtomicCommit true; EvCacheDelete key]
               | None, Some e =>
                   out = ExitRaised e (exited_world out)
                   /\ emitted w2 (exited_world out)
                      = EvAtomicCommit false
                        :: (if isinstance_DatabaseError e then [EvAtomicRollback] else [])
                        ++ [EvCacheDelete key]
               | Some e, _ =>
                   out = ExitRaised e (exited_world out)
                   /\ emitted w2 (exited_world out) = [EvAtomicRollback; EvCacheDelete key]
               end.
Proof.
  intros key entered. subst entered.
  destruct (cache_lock_enter_cases env self flow_class pk w)
    as [(e & w' & tr & He & _ & Ht & Hf)|(w' & tr & He & Hh & Hc & Ht)];
    rewrite He; cbn [entered_world].
  - split; [|discriminate].
    rewrite (emitted_app w w' tr Ht). intros Hin.
    destruct (proj1 (List.Forall_forall _ _) Hf _ Hin). reflexivity.
  - split; [intros _; eauto|].
    intros k w1 [= <- <-].
    split; [exists tr; exact Ht|]. split.
    { rewrite Hc. destruct (0 <? _)%Z; [apply lookup_insert_eq|].
      unfold holds in Hh. fold key in Hh. destruct (cache w !! key); [discriminate|reflexivity]. }
    intros env' exc w2. cbv zeta. rewrite exit_held_key. fold key.
    unfold key_exit, scope_exit.
    destruct exc as [e|]; [|destruct (commit_answer env' (commits w2)) as [e|] eqn:Hcommit;
                              [destruct (isinstance_DatabaseError e)|]];
      cbn [exited_world after perform snd log cache];
      (split; [apply lookup_delete_eq|]); (split; [reflexivity|]);
      (split; [reflexivity|]).
    + destruct (commit_answer env' (commits w2)); emitted_is; reflexivity.
    + emitted_is. rewrite Hcommit. reflexivity.
    + emitted_is. rewrite Hcommit. reflexivity.
    + emitted_is. rewrite Hcommit. reflexivity.
Qed.

Lemma cache_lock_always_deletes_key_witness :
  let key := CacheLock.key hello_flow (PkInt 7) in
  let gen := CacheLock.lock cache_lock hello_flow (PkInt 7) in
  In (EvCacheAdd key true) (emitted fresh_world (entered_world (__enter__ calm_env gen fresh_world)))
  /\ __enter__ calm_env gen fresh_world
     = EnterYielded (held_key key) (entered_world (__enter__ calm_env gen fresh_world))
  /\ forall exc w2,
       cache (exited_world (__exit__ calm_env (held_key key) exc w2)) !! key = None.
Proof.
  split; [right; left; reflexivity|]. split; [reflexivity|]. intros exc w2.
  apply (proj2 (cache_lock_always_deletes_key calm_env cache_lock hello_flow (PkInt 7)
                  fresh_world)
           (held_key (CacheLock.key hello_flow (PkInt 7))) _ eq_refl).
Defined.




(** C3, as the code has it.  In every acquisition of the row lock each backoff
    sleep happens inside the transactional scope of the contended attempt,
    which is still open: the [except] clause that sleeps is inside the [with]
    block.  The scope is ended right after the sleep, by the commit of a
    block left normally, before the next attempt opens its own. *)
Theorem row_lock_sleeps_inside_scope env self flow_class pk w :
  sleeps_inside_scope 0
    (emitted w (entered_world
                  (__enter__ env (SelectForUpdateLock.lock self flow_class pk) w)))
  = true.
Proof. rewrite row_lock_enter_trace. apply sleeps_inside_row_events. Qed.

(** C3, as the specification words it, fails: with two attempts and a row
    that stays locked, the sleep after the first attempt comes between the
    lock request and the end of that attempt's scope. *)
Lemma row_lock_sleeps_in_open_scope :
  let w := entered_world
             (__enter__ busy_env
                (SelectForUpdateLock.lock (SelectForUpdateLock.__init__ true 2)
                   hello_flow (PkInt 7)) fresh_world) in
  emitted fresh_world w
  = [EvAtomicEnter; EvSelectForUpdate "HelloWorldProcess" (PkInt 7) true;
     EvSleep (sleep_time 0 (1 # 2)); EvAtomicCommit true;
     EvAtomicEnter; EvSelectForUpdate "HelloWorldProcess" (PkInt 7) true;
     EvAtomicRollback]
  /\ sleeps_outside_scopes 0 (emitted fresh_world w) = false.
Proof. split; reflexivity. Qed.

(** C4, as the code has it.  The key of the cache lock is
    [django-viewflow-lock-] followed by the flow label, [/] and the process
    key, and it is the key of every cache operation of the strategy: the
    inserts while entering and the delete on the way out. *)
Theorem cache_lock_key_layout env self flow_class pk w :
  let key := "django-viewflow-lock-" +:+ flow_label flow_class +:+ "/" +:+ str_pk pk in
  CacheLock.key flow_class pk = key
  /\ Forall (eq key)
       (cache_keys (emitted w (entered_world
                                 (__enter__ env (CacheLock.lock self flow_class pk) w))))
  /\ (forall k w1 env' exc w2,
        __enter__ env (CacheLock.lock self flow_class pk) w = EnterYielded k w1 ->
        cache_keys (emitted w2 (exited_world (__exit__ env' k exc w2))) = [key]).
Proof.
  intros key. assert (Hkey : CacheLock.key flow_class pk = key) by apply key_layout.
  split; [exact Hkey|]. rewrite <- Hkey. clear Hkey key. split.
  - destruct (cache_lock_enter_trace env self flow_class pk w) as (tail & Htail & ->).
    rewrite cache_keys_app. apply Forall_app. split; [apply cache_events_keys|exact Htail].
  - intros k w1 env' exc w2 Henter.
    destruct (cache_lock_enter_cases env self flow_class pk w)
      as [(e' & w' & tr & He & _)|(w' & tr & He & _)];
      rewrite He in Henter; [discriminate|].
    injection Henter as <- <-. rewrite exit_held_key. unfold key_exit, scope_exit.
    destruct exc as [e|]; [|destruct (commit_answer env' (commits w2)) as [e|];
                              [destruct (isinstance_DatabaseError e)|]];
      cbn [exited_world]; emitted_is; reflexivity.
Qed.

Lemma cache_lock_key_layout_witness :
  CacheLock.key hello_flow (PkInt 7) = "django-viewflow-lock-helloworld/helloworld/7"
  /\ __enter__ calm_env (CacheLock.lock cache_lock hello_flow (PkInt 7)) fresh_world
     = EnterYielded (held_key (CacheLock.key hello_flow (PkInt 7)))
         (entered_world
            (__enter__ calm_env (CacheLock.lock cache_lock hello_flow (PkInt 7)) fresh_world))
  /\ cache_keys (emitted fresh_world
                   (exited_world
                      (__exit__ calm_env (held_key (CacheLock.key hello_flow (PkInt 7)))
                         None fresh_world)))
     = ["django-viewflow-lock-helloworld/helloworld/7"].
Proof.
  split; [reflexivity|]. split; [reflexivity|].
  exact (proj2 (proj2 (cache_lock_key_layout calm_env cache_lock hello_flow (PkInt 7)
                         fresh_world))
           (held_key (CacheLock.key hello_flow (PkInt 7))) _ calm_env None fresh_world eq_refl).
Defined.

(** C4, as the specification words it, fails: the key does not start with
    [lock-]. *)
Lemma cache_lock_key_is_not_lock_prefixed :
  CacheLock.key hello_flow (PkInt 7) = "django-viewflow-lock-helloworld/helloworld/7"
  /\ CacheLock.key hello_flow (PkInt 7)
     <> "lock-" +:+ flow_label hello_flow +:+ "/" +:+ str_pk (PkInt 7).
Proof. split; [reflexivity|discriminate]. Qed.




(** C7.  An exception [e] the protected work raises while the lock is held
    comes out of [__exit__] as [e] itself, for each of the three strategies,
    after the rollback of the scope (and, for the cache lock, the deletion of
    the key): the strategy neither replaces it nor suppresses it. *)
Theorem work_exception_propagates env flow_class pk w e w2 :
  (forall k w1,
      __enter__ env (NoLock.lock flow_class pk) w = EnterYielded k w1 ->
      __exit__ env k (Some e) w2 = ExitRaised e (log EvAtomicRollback w2))
  /\ (forall self k w1,
        __enter__ env (SelectForUpdateLock.lock self flow_class pk) w = EnterYielded k w1 ->
        __exit__ env k (Some e) w2 = ExitRaised e (log EvAtomicRollback w2))
  /\ (forall self k w1,
        __enter__ env (CacheLock.lock self flow_class pk) w = EnterYielded k w1 ->
        exists w3,
          __exit__ env k (Some e) w2 = ExitRaised e w3
          /\ emitted w2 w3 = [EvAtomicRollback; EvCacheDelete (CacheLock.key flow_class pk)]
          /\ cache w3 = delete (CacheLock.key flow_class pk) (cache w2)).
Proof.
  split; [|split].
  - intros k w1 [= <- _]. reflexivity.
  - intros self k w1 Henter.
    rewrite (row_lock_exit env self flow_class pk w k w1 env (Some e) w2 Henter).
    reflexivity.
  - intros self k w1 Henter.
    destruct (cache_lock_enter_cases env self flow_class pk w)
      as [(e' & w' & tr & He & _)|(w' & tr & He & _)];
      rewrite He in Henter; [discriminate|].
    injection Henter as <- <-. rewrite exit_held_key.
    eexists. split; [reflexivity|]. split; [|reflexivity].
    emitted_is. reflexivity.
Qed.

Lemma work_exception_propagates_witness :
  (exists k w1,
      __enter__ calm_env (NoLock.lock hello_flow (PkInt 7)) fresh_world = EnterYielded k w1
      /\ __exit__ calm_env k (Some boom) w1 = ExitRaised boom (log EvAtomicRollback w1))
  /\ (exists k w1,
        __enter__ calm_env (SelectForUpdateLock.lock select_for_update_lock hello_flow (PkInt 7))
          fresh_world = EnterYielded k w1
        /\ __exit__ calm_env k (Some boom) w1 = ExitRaised boom (log EvAtomicRollback w1))
  /\ (exists k w1,
        __enter__ calm_env (CacheLock.lock cache_lock hello_flow (PkInt 7)) fresh_world
        = EnterYielded k w1
        /\ exists w3, __exit__ calm_env k (Some boom) w1 = ExitRaised boom w3).
Proof.
  split; [|split].
  - eexists _, _. split; [reflexivity|].
    refine (proj1 (work_exception_propagates calm_env hello_flow (PkInt 7) fresh_world boom _)
              _ _ eq_refl).
  - eexists _, _. split; [reflexivity|].
    refine (proj1 (proj2 (work_exception_propagates calm_env hello_flow (PkInt 7)
                            fresh_world boom _))
              select_for_update_lock _ _ eq_refl).
  - eexists _, _. split; [reflexivity|].
    destruct (proj2 (proj2 (work_exception_propagates calm_env hello_flow (PkInt 7)
                              fresh_world boom
                              (entered_world (__enter__ calm_env
                                 (CacheLock.lock cache_lock hello_flow (PkInt 7)) fresh_world))))
                cache_lock _ _ eq_refl) as (w3 & Hw3 & _).
    exists w3. exact Hw3.
Defined.

(** C8.  Cache lock with [attempts = 2], the key already in the cache and the
    process record found by both existence queries: the first insert fails,
    one backoff sleep follows, the second insert fails, and [FlowLockFailed]
    is raised without the protected work having run. *)
Theorem cache_lock_two_attempts_key_held env expires flow_class pk work w :
  holds w (CacheLock.key flow_class pk) = true ->
  exists_answer env (existss w) = Answer true ->
  exists_answer env (S (existss w)) = Answer true ->
  let r := with_ env (CacheLock.lock (CacheLock.__init__ 2 expires) flow_class pk) work w in
  granted r = false
  /\ raised r = Some (lock_failed flow_class)
  /\ exn_class (lock_failed flow_class) = FlowLockFailed
  /\ emitted w (world r)
     = [EvExists (process_class flow_class) pk;
        EvCacheAdd (CacheLock.key flow_class pk) false;
        EvSleep (sleep_time 0 (random_sample env (randoms w)));
        EvExists (process_class flow_class) pk;
        EvCacheAdd (CacheLock.key flow_class pk) false]
  /\ count_events is_sleep (emitted w (world r)) = 1
  /\ cache (world r) = cache w.
Proof.
  intros Hheld H0 H1 r.
  assert (Hrun : run env
            (cache_loop (CacheLock.__init__ 2 expires) flow_class pk (range 2)) w
          = Failed (lock_failed flow_class)
              (mkWorld (cache w) (selects w) (S (S (existss w))) (S (randoms w)) (commits w)
                 (trace w ++
                  [EvExists (process_class flow_class) pk;
                   EvCacheAdd (CacheLock.key flow_class pk) false;
                   EvSleep (sleep_time 0 (random_sample env (randoms w)));
                   EvExists (process_class flow_class) pk;
                   EvCacheAdd (CacheLock.key flow_class pk) false]))).
  { change (range 2) with [0%Z; 1%Z]. unfold cache_loop.
    rewrite run_for_else_cons, run_cache_attempt. unfold cache_attempt_outcome. cbv zeta.
    rewrite H0, Hheld. rewrite after_cache_add_held by exact Hheld.
    unfold backoff_outcome.
    change (0 =? CacheLock.attempts (CacheLock.__init__ 2 expires) - 1)%Z with false.
    change (float_overflows 0) with false.
    cbv beta iota.
    rewrite run_for_else_cons, run_cache_attempt. unfold cache_attempt_outcome. cbv zeta.
    cbn [existss after perform snd log]. rewrite H1.
    replace (holds _ (CacheLock.key flow_class pk)) with true by (symmetry; exact Hheld).
    rewrite after_cache_add_held by exact Hheld.
    unfold backoff_outcome.
    change (1 =? CacheLock.attempts (CacheLock.__init__ 2 expires) - 1)%Z with true.
    cbv beta iota. same_world. }
  assert (Hr : r = mkWithResult false (Some (lock_failed flow_class))
                 (outcome_world (run env
                    (cache_loop (CacheLock.__init__ 2 expires) flow_class pk (range 2)) w))).
  { subst r. unfold with_. rewrite cache_lock_enter.
    change (CacheLock.attempts (CacheLock.__init__ 2 expires)) with 2%Z.
    rewrite Hrun. reflexivity. }
  rewrite Hr, Hrun. cbn [granted raised world outcome_world cache].
  erewrite (emitted_app w) by (cbn [trace]; reflexivity).
  repeat split.
Qed.

Lemma cache_lock_two_attempts_key_held_witness :
  let r := with_ calm_env (CacheLock.lock (CacheLock.__init__ 2 120) hello_flow (PkInt 7))
             (fun w => (None, w)) locked_world in
  holds locked_world (CacheLock.key hello_flow (PkInt 7)) = true
  /\ exists_answer calm_env (existss locked_world) = Answer true
  /\ exists_answer calm_env (S (existss locked_world)) = Answer true
  /\ granted r = false
  /\ raised r = Some (lock_failed hello_flow)
  /\ count_events is_sleep (emitted locked_world (world r)) = 1.
Proof.
  assert (H0 : holds locked_world (CacheLock.key hello_flow (PkInt 7)) = true)
    by (vm_compute; reflexivity).
  split; [exact H0|]. split; [reflexivity|]. split; [reflexivity|].
  destruct (cache_lock_two_attempts_key_held calm_env 120 hello_flow (PkInt 7)
              (fun w => (None, w)) locked_world H0 eq_refl eq_refl)
    as (Hg & Hr & _ & _ & Hs & _).
  repeat split; assumption.
Defined.

(** C9.  The no-op lock only opens a transactional scope and yields, in every
    world and whatever the collaborators answer: entering adds the single
    event [EvAtomicEnter] and never raises; leaving only commits or rolls
    back, and raises nothing but the work's own exception or the one of the
    commit; the cache is never read or written, no row lock is requested and
    nothing sleeps.  So a second acquisition for the same key, started in any
    world [w'] reached while the first scope is still open, is granted too. *)
Theorem no_lock_only_opens_a_scope env flow_class pk w :
  exists k,
    __enter__ env (NoLock.lock flow_class pk) w = EnterYielded k (log EvAtomicEnter w)
    /\ cache (log EvAtomicEnter w) = cache w
    /\ emitted w (log EvAtomicEnter w) = [EvAtomicEnter]
    /\ (forall env' exc w',
          __exit__ env' k exc w' = scope_exit env' exc w'
          /\ cache (exited_world (__exit__ env' k exc w')) = cache w'
          /\ forallb is_transaction_event (emitted w' (exited_world (__exit__ env' k exc w')))
             = true)
    /\ (forall env' w',
          exists k', __enter__ env' (NoLock.lock flow_class pk) w'
                     = EnterYielded k' (log EvAtomicEnter w')).
Proof.
  exists held_atomic. split; [reflexivity|]. split; [reflexivity|].
  split; [apply emitted_app; reflexivity|]. split.
  - intros env' exc w'. rewrite exit_held_atomic.
    split; [reflexivity|]. apply scope_exit_events.
  - intros env' w'. exists held_atomic. reflexivity.
Qed.

(** C10.  With [attempts = 0] the cache lock raises [FlowLockFailed] at once:
    the loop runs no round and its [else] clause fires.  The row lock neither
    yields nor raises [FlowLockFailed]: its generator ends without yielding,
    so entering the scope raises the [RuntimeError] of [contextmanager] and
    the protected work does not run.  Neither touches a collaborator. *)
Theorem zero_attempts env nowait expires flow_class pk work w :
  __enter__ env (CacheLock.lock (CacheLock.__init__ 0 expires) flow_class pk) w
  = EnterRaised (lock_failed flow_class) w
  /\ exn_class (lock_failed flow_class) = FlowLockFailed
  /\ __enter__ env
       (SelectForUpdateLock.lock (SelectForUpdateLock.__init__ nowait 0) flow_class pk) w
     = EnterRaised didnt_yield w
  /\ didnt_yield = mkExn RuntimeError "generator didn't yield"
  /\ with_ env (SelectForUpdateLock.lock (SelectForUpdateLock.__init__ nowait 0) flow_class pk)
       work w
     = mkWithResult false (Some didnt_yield) w.
Proof. repeat split. Qed.

(** * Further properties of the strategies *)

(** ** The row lock *)



(** X2.  Row lock: once it has yielded, the end of the scope never asks for
    the lock again, however many attempts are left.  When the work returns,
    the scope is committed and [__exit__] returns false, or the commit raises
    and its exception comes out, after a rollback when it is a
    [DatabaseError] and without one otherwise; the cache is not touched. *)
Theorem row_lock_release env self flow_class pk w k w1 env' w2 :
  __enter__ env (SelectForUpdateLock.lock self flow_class pk) w = EnterYielded k w1 ->
  let out := __exit__ env' k None w2 in
  cache (exited_world out) = cache w2
  /\ count_events is_lock_request (emitted w2 (exited_world out)) = 0
  /\ count_events is_sleep (emitted w2 (exited_world out)) = 0
  /\ match commit_answer env' (commits w2) with
     | None =>
         out = ExitReturned false (exited_world out)
         /\ emitted w2 (exited_world out) = [EvAtomicCommit true]
     | Some e =>
         out = ExitRaised e (exited_world out)
         /\ emitted w2 (exited_world out)
            = EvAtomicCommit false
              :: (if isinstance_DatabaseError e then [EvAtomicRollback] else [])
     end.
Proof.
  intros Henter out. subst out.
  rewrite (row_lock_exit env self flow_class pk w k w1 env' None w2 Henter).
  unfold scope_exit.
  destruct (commit_answer env' (commits w2)) as [e|] eqn:Hc;
    [destruct (isinstance_DatabaseError e)|]; cbn [exited_world];
    (split; [reflexivity|]); emitted_is; rewrite Hc; repeat split.
Qed.

Lemma row_lock_release_witness :
  let gen := SelectForUpdateLock.lock select_for_update_lock hello_flow (PkInt 7) in
  exists k w1,
    __enter__ calm_env gen fresh_world = EnterYielded k w1
    /\ __exit__ calm_env k None w1 = ExitReturned false (exited_world (__exit__ calm_env k None w1))
    /\ emitted w1 (exited_world (__exit__ calm_env k None w1)) = [EvAtomicCommit true].
Proof.
  eexists _, _. split; [reflexivity|].
  exact (proj2 (proj2 (proj2
           (row_lock_release calm_env select_for_update_lock hello_flow (PkInt 7) fresh_world
              _ _ calm_env _ eq_refl)))).
Defined.





(** X5.  Row lock, whatever the collaborators answer: an acquisition asks for
    the row lock at most [attempts] times, always for the given process key
    with the configured [nowait], and it performs no cache operation and
    leaves the cache as it was. *)
Theorem row_lock_requests_bounded env self flow_class pk w :
  let w1 := entered_world (__enter__ env (SelectForUpdateLock.lock self flow_class pk) w) in
  count_events is_lock_request (emitted w w1) <= Z.to_nat (SelectForUpdateLock.attempts self)
  /\ Forall (fun ev => is_lock_request ev = true ->
                       ev = EvSelectForUpdate (process_class flow_class) pk
                              (SelectForUpdateLock.nowait self))
       (emitted w w1)
  /\ cache_keys (emitted w w1) = []
  /\ cache w1 = cache w.
Proof.
  cbv zeta. rewrite row_lock_enter_trace.
  destruct (row_events_requests env self flow_class pk
              (Z.to_nat (SelectForUpdateLock.attempts self)) 0
              (selects w) (randoms w) (commits w)) as (Hn & Hf & Hk).
  split; [exact Hn|]. split; [exact Hf|]. split; [exact Hk|].
  unfold __enter__, SelectForUpdateLock.lock. rewrite range_range_from.
  pose proof (row_loop_trace env self flow_class pk
                (Z.to_nat (SelectForUpdateLock.attempts self)) 0 w) as [_ Hc].
  destruct (run env _ w); exact Hc.
Qed.

(** ** The cache lock *)



(** X7.  Cache lock, mutual exclusion.  An acquisition with a positive
    [expires] that has yielded has put its key in the cache; and in any world
    whose cache holds that key (the entry neither deleted nor expired), no
    acquisition for the same flow label and process key is granted, whatever
    its [attempts], its [expires] and the answers of the collaborators: it
    raises, the work does not run, no insert succeeds and the cache is left
    as it is, the key of the holder included. *)
Theorem cache_lock_excludes env self flow_class pk w k w1 env' self' work w' :
  (0 < CacheLock.expires self)%Z ->
  __enter__ env (CacheLock.lock self flow_class pk) w = EnterYielded k w1 ->
  holds w1 (CacheLock.key flow_class pk) = true
  /\ (holds w' (CacheLock.key flow_class pk) = true ->
      let r := with_ env' (CacheLock.lock self' flow_class pk) work w' in
      granted r = false
      /\ (exists e, raised r = Some e)
      /\ ~ In (EvCacheAdd (CacheLock.key flow_class pk) true) (emitted w' (world r))
      /\ cache (world r) = cache w').
Proof.
  intros Hexpires Henter. split.
  - destruct (cache_lock_enter_cases env self flow_class pk w)
      as [(e & w0 & tr & He & _)|(w0 & tr & He & _ & Hc & _)];
      rewrite He in Henter; [discriminate|].
    injection Henter as _ <-.
    apply Z.ltb_lt in Hexpires. rewrite Hexpires in Hc.
    unfold holds. rewrite Hc, lookup_insert_eq. reflexivity.
  - intros Hheld r. subst r. unfold with_.
    destruct (cache_lock_enter_cases env' self' flow_class pk w')
      as [(e & w'' & tr' & He' & Hc' & Ht' & Hf')|(w'' & tr' & _ & Hh & _)].
    + rewrite He'. cbn [granted raised world]. rewrite (emitted_app w' w'' tr' Ht').
      split; [reflexivity|]. split; [exists e; reflexivity|]. split; [|exact Hc'].
      intros Hin. exact (proj1 (List.Forall_forall _ _) Hf' _ Hin eq_refl).
    + rewrite Hheld in Hh. discriminate.
Qed.

Lemma cache_lock_excludes_witness :
  let gen := CacheLock.lock cache_lock hello_flow (PkInt 7) in
  (0 < CacheLock.expires cache_lock)%Z
  /\ exists k w1,
       __enter__ calm_env gen fresh_world = EnterYielded k w1
       /\ holds w1 (CacheLock.key hello_flow (PkInt 7)) = true
       /\ granted (with_ calm_env gen (fun w => (None, w)) w1) = false
       /\ cache (world (with_ calm_env gen (fun w => (None, w)) w1)) = cache w1.
Proof.
  assert (H0 : (0 < CacheLock.expires cache_lock)%Z) by (simpl; lia).
  split; [exact H0|].
  eexists _, _. split; [reflexivity|].
  destruct (cache_lock_excludes calm_env cache_lock hello_flow (PkInt 7) fresh_world _ _
              calm_env cache_lock (fun w => (None, w))
              (entered_world
                 (__enter__ calm_env (CacheLock.lock cache_lock hello_flow (PkInt 7))
                    fresh_world))
              H0 eq_refl) as (Hheld & Hexcl).
  split; [exact Hheld|].
  destruct (Hexcl Hheld) as (Hg & _ & _ & Hc).
  split; [exact Hg|exact Hc].
Defined.

(** X8.  Cache lock, acquire and release: when the work leaves the cache
    alone, the end of the scope gives back the cache exactly as it was before
    the acquisition, on every way out; in particular the key is free again
    for the next acquisition. *)
Theorem cache_lock_release_restores_cache env self flow_class pk w k w1 env' exc w2 :
  __enter__ env (CacheLock.lock self flow_class pk) w = EnterYielded k w1 ->
  cache w2 = cache w1 ->
  cache (exited_world (__exit__ env' k exc w2)) = cache w
  /\ holds (exited_world (__exit__ env' k exc w2)) (CacheLock.key flow_class pk) = false.
Proof.
  intros Henter Hsame.
  destruct (cache_lock_enter_cases env self flow_class pk w)
    as [(e & w0 & tr & He & _)|(w0 & tr & He & Hh & Hc & _)];
    rewrite He in Henter; [discriminate|].
  injection Henter as <- <-. rewrite exit_held_key.
  assert (Hfree : cache w !! CacheLock.key flow_class pk = None).
  { unfold holds in Hh. destruct (cache w !! CacheLock.key flow_class pk);
      [discriminate|reflexivity]. }
  assert (Hdel : delete (CacheLock.key flow_class pk) (cache w0) = cache w).
  { rewrite Hc. destruct (0 <? _)%Z; [apply delete_insert_id|apply delete_id]; exact Hfree. }
  assert (Hout : cache (exited_world (key_exit env' (CacheLock.key flow_class pk) exc w2))
                 = cache w).
  { unfold key_exit, scope_exit.
    destruct exc as [e|]; [|destruct (commit_answer env' (commits w2)) as [e|];
                              [destruct (isinstance_DatabaseError e)|]];
      cbn [exited_world after perform snd log cache];
      rewrite Hsame; exact Hdel. }
  split; [exact Hout|]. unfold holds in *. rewrite Hout. exact Hh.
Qed.

Lemma cache_lock_release_restores_cache_witness :
  let gen := CacheLock.lock cache_lock hello_flow (PkInt 7) in
  exists k w1,
    __enter__ calm_env gen fresh_world = EnterYielded k w1
    /\ cache w1 = cache w1
    /\ cache (exited_world (__exit__ calm_env k (Some boom) w1)) = cache fresh_world.
Proof.
  eexists _, _. split; [reflexivity|]. split; [reflexivity|].
  exact (proj1 (cache_lock_release_restores_cache calm_env cache_lock hello_flow (PkInt 7)
                  fresh_world _ _ calm_env (Some boom) _ eq_refl eq_refl)).
Defined.

(** X9.  Cache lock, other keys: neither entering nor leaving the scope
    changes what the cache holds under any key other than the lock key of
    this flow label and process key. *)
Theorem cache_lock_leaves_other_keys env self flow_class pk w other :
  other <> CacheLock.key flow_class pk ->
  cache (entered_world (__enter__ env (CacheLock.lock self flow_class pk) w)) !! other
  = cache w !! other
  /\ forall k w1 env' exc w2,
       __enter__ env (CacheLock.lock self flow_class pk) w = EnterYielded k w1 ->
       cache (exited_world (__exit__ env' k exc w2)) !! other = cache w2 !! other.
Proof.
  intros Hother.
  destruct (cache_lock_enter_cases env self flow_class pk w)
    as [(e & w0 & tr & He & Hc & _)|(w0 & tr & He & _ & Hc & _)]; rewrite He;
    cbn [entered_world]; rewrite Hc.
  - split; [reflexivity|]. discriminate.
  - split; [destruct (0 <? _)%Z; [apply lookup_insert_ne; congruence|reflexivity]|].
    intros k w1 env' exc w2 [= <- <-]. rewrite exit_held_key.
    unfold key_exit, scope_exit.
    destruct exc as [e|]; [|destruct (commit_answer env' (commits w2)) as [e|];
                              [destruct (isinstance_DatabaseError e)|]];
      cbn [exited_world after perform snd log cache];
      apply lookup_delete_ne; congruence.
Qed.

Lemma cache_lock_leaves_other_keys_witness :
  "sessions" <> CacheLock.key hello_flow (PkInt 7)
  /\ cache (entered_world
              (__enter__ calm_env (CacheLock.lock cache_lock hello_flow (PkInt 7)) fresh_world))
     !! "sessions"
     = cache fresh_world !! "sessions".
Proof.
  assert (H : "sessions" <> CacheLock.key hello_flow (PkInt 7)) by discriminate.
  split; [exact H|].
  exact (proj1 (cache_lock_leaves_other_keys calm_env cache_lock hello_flow (PkInt 7)
                  fresh_world "sessions" H)).
Defined.





(** X12.  Cache lock, whatever the collaborators answer: every sleep of an
    acquisition happens with no transactional scope open, and the only scope
    is the one opened after the key was stored, open when the generator
    yields; an acquisition that raises leaves no scope open.  It looks the
    process up at most [attempts] times and tries to insert at most once per
    lookup. *)
Theorem cache_lock_sleeps_outside_scopes env self flow_class pk w :
  let entered := __enter__ env (CacheLock.lock self flow_class pk) w in
  let tr := emitted w (entered_world entered) in
  sleeps_outside_scopes 0 tr = true
  /\ open_scopes 0 tr = match entered with
                        | EnterYielded _ _ => 1
                        | EnterRaised _ _ => 0
                        end
  /\ count_events is_exists_query tr <= Z.to_nat (CacheLock.attempts self)
  /\ count_events is_cache_add tr <= count_events is_exists_query tr.
Proof.
  cbv zeta. pose proof (cache_lock_enter_scope env self flow_class pk w) as He.
  destruct (__enter__ env (CacheLock.lock self flow_class pk) w) as [k w1|e w1];
    cbn [entered_world]; rewrite He.
  - destruct (cache_events_outside_scopes env self flow_class pk
                (holds w (CacheLock.key flow_class pk))
                (Z.to_nat (CacheLock.attempts self)) 0 (existss w) (randoms w)
                [EvAtomicEnter]) as (H1 & H2 & H3 & H4).
    rewrite H1, H2, !count_events_app. repeat split; unfold count_events in *; simpl; lia.
  - destruct (cache_events_outside_scopes env self flow_class pk
                (holds w (CacheLock.key flow_class pk))
                (Z.to_nat (CacheLock.attempts self)) 0 (existss w) (randoms w)
                []) as (H1 & H2 & H3 & H4).
    rewrite app_nil_r in H1, H2. rewrite H1, H2. repeat split; assumption.
Qed.

(** ** Edge cases of the configuration and of the backoff *)

(** X13.  An [attempts] that is zero or negative makes the range empty: the
    cache lock raises [FlowLockFailed] at once and the row lock ends without
    yielding, so that entering raises the [RuntimeError] of [contextmanager];
    neither asks anything of a collaborator, and the work does not run. *)
Theorem no_attempts_no_acquisition env row cache_ flow_class pk work w :
  (SelectForUpdateLock.attempts row <= 0)%Z ->
  (CacheLock.attempts cache_ <= 0)%Z ->
  with_ env (CacheLock.lock cache_ flow_class pk) work w
  = mkWithResult false (Some (lock_failed flow_class)) w
  /\ with_ env (SelectForUpdateLock.lock row flow_class pk) work w
     = mkWithResult false (Some didnt_yield) w.
Proof.
  intros Hrow Hcache.
  unfold with_, __enter__, CacheLock.lock, SelectForUpdateLock.lock, range.
  replace (Z.to_nat (SelectForUpdateLock.attempts row)) with 0 by lia.
  replace (Z.to_nat (CacheLock.attempts cache_)) with 0 by lia.
  split; reflexivity.
Qed.

Lemma no_attempts_no_acquisition_witness :
  (SelectForUpdateLock.attempts (SelectForUpdateLock.__init__ true (-3)) <= 0)%Z
  /\ (CacheLock.attempts (CacheLock.__init__ (-3) 120) <= 0)%Z
  /\ with_ calm_env (CacheLock.lock (CacheLock.__init__ (-3) 120) hello_flow (PkInt 7))
       (fun w => (None, w)) fresh_world
     = mkWithResult false (Some (lock_failed hello_flow)) fresh_world
  /\ with_ calm_env
       (SelectForUpdateLock.lock (SelectForUpdateLock.__init__ true (-3)) hello_flow (PkInt 7))
       (fun w => (None, w)) fresh_world
     = mkWithResult false (Some didnt_yield) fresh_world.
Proof.
  assert (H1 : (SelectForUpdateLock.attempts (SelectForUpdateLock.__init__ true (-3)) <= 0)%Z)
    by (simpl; lia).
  assert (H2 : (CacheLock.attempts (CacheLock.__init__ (-3) 120) <= 0)%Z) by (simpl; lia).
  split; [exact H1|]. split; [exact H2|].
  exact (no_attempts_no_acquisition calm_env (SelectForUpdateLock.__init__ true (-3))
           (CacheLock.__init__ (-3) 120) hello_flow (PkInt 7) (fun w => (None, w))
           fresh_world H1 H2).
Defined.




